(** * Optimal Build Calculator front end: a shallow embedding

    The React view of the repository ([App.js], [InputForm.js],
    [ResultsDisplay.js] and the [DamageHeatmap] component) is modelled as
    pure functions over an explicit view state.  JavaScript objects that
    are used as dictionaries are finite maps; the enumeration order of
    their keys is not modelled.  Strings are sequences of 8-bit code
    units.  A JavaScript number is represented by its sign and the exact
    mathematical value of the literal it was read from: the rounding to
    IEEE binary64 is not modelled. *)

From Stdlib Require Import Ascii String QArith.
From stdpp Require Import gmap strings list fin_maps.

Local Open Scope string_scope.
Set Warnings "-register-all".

(** ** Numbers *)

Module Num.

(** A JavaScript Number: not-a-number, a signed infinity, or a signed finite
    magnitude.  The magnitude is kept in lowest terms, so that equal values
    are equal terms. *)
Inductive Number : Type :=
  | NaN
  | Infinity (neg : bool)
  | Finite (neg : bool) (mag : Q).

Definition zero : Number := Finite false 0%Q.

Definition of_Z (z : Z) : Number := Finite (z <? 0)%Z (Z.abs z # 1).

(** [isNaN(x)] for an [x] that already is a Number. *)
Definition isNaN (x : Number) : bool :=
  match x with NaN => true | _ => false end.

(** ToBoolean on a Number: [NaN], [+0] and [-0] are falsy. *)
Definition truthy (x : Number) : bool :=
  match x with
  | NaN => false
  | Infinity _ => true
  | Finite _ q => negb (Qeq_bool q 0)
  end.

End Num.

Export Num(Number, NaN, Infinity, Finite).

(** ** The built-in [parseFloat] (ECMA-262, 19.2.4)

    [parseFloat(string)] converts its argument to a string, removes leading
    white space, and reads the longest prefix that is a [StrDecimalLiteral];
    when there is no such prefix the result is [NaN].  The scanners below
    return the value read together with the unread rest of the string. *)

Module Parse.

Definition code (c : ascii) : N := N_of_ascii c.

(** [StrWhiteSpaceChar] restricted to 8-bit code units: TAB, LF, VT, FF, CR,
    SP and NBSP. *)
Definition is_white_space (c : ascii) : bool :=
  let n := code c in
  ((9 <=? n) && (n <=? 13) || (n =? 32) || (n =? 160))%N.

Definition is_digit (c : ascii) : bool :=
  let n := code c in ((48 <=? n) && (n <=? 57))%N.

Definition digit_value (c : ascii) : N := (code c - 48)%N.

Definition is_exponent_indicator (c : ascii) : bool :=
  let n := code c in ((n =? 101) || (n =? 69))%N.

Definition is_dot (c : ascii) : bool := (code c =? 46)%N.
Definition is_plus (c : ascii) : bool := (code c =? 43)%N.
Definition is_minus (c : ascii) : bool := (code c =? 45)%N.

Arguments is_white_space : simpl never.
Arguments is_digit : simpl never.
Arguments is_exponent_indicator : simpl never.
Arguments is_dot : simpl never.
Arguments is_plus : simpl never.
Arguments is_minus : simpl never.

(** [TrimString(s, start)] *)
Fixpoint TrimStart (s : string) : string :=
  match s with
  | String c s' => if is_white_space c then TrimStart s' else s
  | EmptyString => EmptyString
  end.

(** The longest run of decimal digits at the head of [s], and what follows. *)
Fixpoint DecimalDigits (s : string) : list N * string :=
  match s with
  | String c s' =>
      if is_digit c
      then let '(ds, r) := DecimalDigits s' in (digit_value c :: ds, r)
      else ([], s)
  | EmptyString => ([], EmptyString)
  end.

(** MV of a digit sequence. *)
Definition digits_value (ds : list N) : N :=
  fold_left (fun acc d => (10 * acc + d)%N) ds 0%N.

(** An optional sign; [true] stands for [-]. *)
Definition Sign (s : string) : bool * string :=
  match s with
  | String c s' =>
      if is_minus c then (true, s')
      else if is_plus c then (false, s')
      else (false, s)
  | EmptyString => (false, s)
  end.

(** [ExponentPart ::: ExponentIndicator SignedInteger].  The part is only
    taken when it is complete: in ["5e"] and ["5e+"] nothing is consumed. *)
Definition ExponentPart (s : string) : Z * string :=
  match s with
  | String c s1 =>
      if is_exponent_indicator c then
        let '(neg, s2) := Sign s1 in
        let '(ds, s3) := DecimalDigits s2 in
        match ds with
        | [] => (0%Z, s)
        | _ :: _ =>
            let e := Z.of_N (digits_value ds) in
            ((if neg then - e else e)%Z, s3)
        end
      else (0%Z, s)
  | EmptyString => (0%Z, s)
  end.

(** The magnitude [m * 10^e], in lowest terms. *)
Definition scale (m : N) (e : Z) : Q :=
  Qred ((Z.of_N m # 1) * Qpower (10 # 1) e).

Inductive Magnitude : Type :=
  | MInfinity
  | MFinite (q : Q).

(** [s] without its prefix [p], when it has that prefix. *)
Fixpoint drop_prefix (p s : string) : option string :=
  match p, s with
  | EmptyString, _ => Some s
  | String a p', String b s' =>
      if Ascii.eqb a b then drop_prefix p' s' else None
  | String _ _, EmptyString => None
  end.

(** [StrUnsignedDecimalLiteral :::
       Infinity
     | DecimalDigits . DecimalDigits(opt) ExponentPart(opt)
     | . DecimalDigits ExponentPart(opt)
     | DecimalDigits ExponentPart(opt)] *)
Definition StrUnsignedDecimalLiteral (s : string) : option (Magnitude * string) :=
  match drop_prefix "Infinity" s with
  | Some r => Some (MInfinity, r)
  | None =>
      let '(ip, s1) := DecimalDigits s in
      match s1 with
      | String c s2 =>
          if is_dot c then
            let '(fp, s3) := DecimalDigits s2 in
            match ip, fp with
            | [], [] => None
            | _, _ =>
                let '(e, s4) := ExponentPart s3 in
                Some (MFinite (scale (digits_value (ip ++ fp))
                                     (e - Z.of_nat (length fp))), s4)
            end
          else
            match ip with
            | [] => None
            | _ :: _ =>
                let '(e, s4) := ExponentPart s1 in
                Some (MFinite (scale (digits_value ip) e), s4)
            end
      | EmptyString =>
          match ip with
          | [] => None
          | _ :: _ => Some (MFinite (scale (digits_value ip) 0), EmptyString)
          end
      end
  end.

(** [StrDecimalLiteral]: an optional sign and an unsigned literal. *)
Definition StrDecimalLiteral (s : string) : option (Number * string) :=
  let '(neg, s1) := Sign s in
  match StrUnsignedDecimalLiteral s1 with
  | Some (MInfinity, r) => Some (Infinity neg, r)
  | Some (MFinite q, r) => Some (Finite neg q, r)
  | None => None
  end.

(** [parseFloat] applied to a string. *)
Definition parseFloat_string (s : string) : Number :=
  match StrDecimalLiteral (TrimStart s) with
  | Some (v, _) => v
  | None => NaN
  end.

(** A character that could extend a numeric literal that is complete so
    far: a digit, the decimal point or an exponent indicator. *)
Definition continues (c : ascii) : bool :=
  is_digit c || is_dot c || is_exponent_indicator c.

(** [t] is empty or begins with a character that satisfies [ok]. *)
Definition head_ok (ok : ascii -> bool) (t : string) : Prop :=
  match t with
  | EmptyString => True
  | String c _ => ok c = true
  end.

Definition stops (t : string) : Prop :=
  head_ok (fun c => negb (continues c)) t.

End Parse.

(** ** JavaScript values *)

Module JS.

(** The values a JSON response body can hold, and [undefined]. *)
Inductive JSValue : Type :=
  | JUndefined
  | JNull
  | JBool (b : bool)
  | JNum (n : Number)
  | JStr (s : string)
  | JArr (items : list JSValue)
  | JObj (props : list (string * JSValue)).

(** ToBoolean, as used by [!v], [v && ...] and [v ? ... : ...]. *)
Definition truthy (v : JSValue) : bool :=
  match v with
  | JUndefined | JNull => false
  | JBool b => b
  | JNum n => Num.truthy n
  | JStr s => negb (String.eqb s "")
  | JArr _ | JObj _ => true
  end.

(** Member access throws a TypeError on [null] and [undefined]. *)
Definition nullish (v : JSValue) : bool :=
  match v with
  | JUndefined | JNull => true
  | _ => false
  end.

(** The last binding of [k] in a property list (a later duplicate key of a
    JSON text overrides an earlier one). *)
Fixpoint lookup_prop (k : string) (props : list (string * JSValue)) : option JSValue :=
  match props with
  | [] => None
  | (k', v) :: rest =>
      match lookup_prop k rest with
      | Some w => Some w
      | None => if String.eqb k' k then Some v else None
      end
  end.

(** [v.k] for a [v] that is not [nullish] and a name [k] that no built-in
    prototype defines ([error], [optimal_x], ...): the own property of an
    object, and [undefined] in every other case. *)
Definition prop (k : string) (v : JSValue) : JSValue :=
  match v with
  | JObj props => default JUndefined (lookup_prop k props)
  | _ => JUndefined
  end.

End JS.

Export JS(JSValue, JUndefined, JNull, JBool, JNum, JStr, JArr, JObj).

(** ** Virtual DOM *)

Module VDom.

(** What a component returns: an element with its props and children, a
    literal text, or an embedded expression [{v}]. *)
Inductive Node : Type :=
  | Elem (tag : string) (props : list (string * JSValue)) (children : list Node)
  | Text (s : string)
  | Expr (v : JSValue).

(** [{cond && <node/>}]: the node when [cond] is truthy, else [cond]. *)
Definition jsx_and (cond : JSValue) (node : Node) : Node :=
  if JS.truthy cond then node else Expr cond.

(** A component that returned [null] stands in the tree as [{null}]. *)
Definition mount (r : option Node) : Node :=
  match r with Some n => n | None => Expr JNull end.

Definition has_class (cls : string) (props : list (string * JSValue)) : bool :=
  match JS.lookup_prop "className" props with
  | Some (JStr c) => String.eqb c cls
  | _ => false
  end.

(** The elements of class [cls] in a tree. *)
Fixpoint by_class (cls : string) (n : Node) : list Node :=
  match n with
  | Elem tag props children =>
      (if has_class cls props then [n] else [])
        ++ flat_map (by_class cls) children
  | _ => []
  end.

(** The [name] of every [<input>] in a tree. *)
Fixpoint input_names (n : Node) : list string :=
  match n with
  | Elem tag props children =>
      (if String.eqb tag "input"
       then match JS.lookup_prop "name" props with
            | Some (JStr s) => [s]
            | _ => []
            end
       else [])
        ++ flat_map input_names children
  | _ => []
  end.

(** The expression values embedded anywhere in a tree. *)
Fixpoint exprs (n : Node) : list JSValue :=
  match n with
  | Elem _ _ children => flat_map exprs children
  | Text _ => []
  | Expr v => [v]
  end.

End VDom.

Export VDom(Node, Elem, Text, Expr).

(** ** ResultsDisplay.js *)

Definition ResultsDisplay (results : JSValue) : option Node :=
  if negb (JS.truthy results) then None
  else Some
    (Elem "div" []
       [ Elem "h2" [] [Text "Calculation Results"];
         Elem "p" [] [Text "Optimal X: "; Expr (JS.prop "optimal_x" results)];
         Elem "p" [] [Text "Optimal Y: "; Expr (JS.prop "optimal_y" results)];
         Elem "p" [] [Text "Optimal Z: "; Expr (JS.prop "optimal_z" results)];
         Elem "p" [] [Text "Max Damage: "; Expr (JS.prop "max_damage" results)] ]).

(** ** The stored input values *)

(** A field of the input mapping holds a number (the initial defaults) or
    the raw text of an [<input>] ([e.target.value] is always a string). *)
Inductive FieldValue : Type :=
  | FNum (n : Number)
  | FStr (s : string).

Definition field_js (v : FieldValue) : JSValue :=
  match v with FNum n => JNum n | FStr s => JStr s end.

(** [parseFloat(value)].  A number is first converted to a string; reading
    that string back gives the number again, except that [-0] prints as
    ["0"]. *)
Definition parseFloat (value : FieldValue) : Number :=
  match value with
  | FStr s => Parse.parseFloat_string s
  | FNum (Finite _ (0 # _)) => Num.zero
  | FNum n => n
  end.

(** ** InputForm.js *)

Definition InputForm (inputs : gmap string FieldValue) : Node :=
  Elem "form" []
    (map (fun '(key, value) =>
            Elem "div" [("key", JStr key)]
              [ Elem "label" [] [Text key; Text ":"];
                Elem "input"
                  [ ("type", JStr "number"); ("name", JStr key);
                    ("value", field_js value); ("step", JStr "any") ] [] ])
         (map_to_list inputs)
     ++ [Elem "button" [("type", JStr "submit")] [Text "Calculate"]]).

(** ** axios *)

Module Axios.

(** What comes back from the network for one request: nothing at all (a
    transport failure), or an HTTP response with its status and its body as
    axios hands it over (the parsed JSON, or the raw text when the body is
    not JSON). *)
Inductive Reply : Type :=
  | NoResponse
  | Response (status : Z) (data : JSValue).

Record AxiosResponse : Type := { status : Z; data : JSValue }.

(** The error a rejected request carries; [response] is [undefined] when no
    response was received.  Its [message] is only read for the console and
    is left out. *)
Record AxiosError : Type := { response : option AxiosResponse }.

(** The default [validateStatus]. *)
Definition validateStatus (status : Z) : bool :=
  ((200 <=? status) && (status <? 300))%Z.

(** [await axios.post(url, body)]: the promise resolves with the response
    for a 2xx status and rejects otherwise. *)
Definition post (r : Reply) : AxiosResponse + AxiosError :=
  match r with
  | NoResponse => inr {| response := None |}
  | Response st d =>
      if validateStatus st
      then inl {| status := st; data := d |}
      else inr {| response := Some {| status := st; data := d |} |}
  end.

(** A submission fails when the promise rejects. *)
Definition fails (r : Reply) : bool :=
  match post r with inl _ => false | inr _ => true end.

End Axios.

(** ** App.js

    The view with coercion at submission time, as [App.js] has it. *)

Module App.

Record State : Type :=
  { inputs : gmap string FieldValue; results : JSValue; error : JSValue }.

Definition initial_inputs : gmap string FieldValue :=
  <["K" := FNum (Num.of_Z 1000)]>
  (<["I" := FNum (Num.of_Z 10)]>
  (<["F" := FNum (Num.of_Z 500)]>
  (<["S" := FNum (Num.of_Z 50)]>
  (<["CR0" := FNum (Num.of_Z 5)]>
  (<["CD0" := FNum (Num.of_Z 50)]> ∅))))).

(** The six keys of the request body. *)
Definition recognized_keys : gset string :=
  {["K"; "I"; "F"; "S"; "CR0"; "CD0"]}.

Definition initial : State :=
  {| inputs := initial_inputs; results := JNull; error := JNull |}.

Definition setInputs (f : gmap string FieldValue -> gmap string FieldValue)
    (st : State) : State :=
  {| inputs := f (inputs st); results := results st; error := error st |}.

Definition setResults (v : JSValue) (st : State) : State :=
  {| inputs := inputs st; results := v; error := error st |}.

Definition setError (v : JSValue) (st : State) : State :=
  {| inputs := inputs st; results := results st; error := v |}.

(** [prev => ({ ...prev, [name]: value })] *)
Definition updateField (name value : string)
    (prev : gmap string FieldValue) : gmap string FieldValue :=
  <[name := FStr value]> prev.

(** [handleInputChange(e)], with [name] and [value] read off [e.target]. *)
Definition handleInputChange (name value : string) (st : State) : State :=
  setInputs (updateField name value) st.

(** A state in which the user has typed into every field. *)
Definition all_typed : State :=
  handleInputChange "K" "1200"
    (handleInputChange "I" "12.5"
       (handleInputChange "F" ".5"
          (handleInputChange "S" "-3"
             (handleInputChange "CR0" "5e1"
                (handleInputChange "CD0" "50" initial))))).

(** [isNaN(parsedValue) ? 0 : parsedValue] *)
Definition coerce (value : FieldValue) : Number :=
  let parsedValue := parseFloat value in
  if Num.isNaN parsedValue then Num.zero else parsedValue.

(** The assignment [obj[key] = v] of a number to a plain object.  It adds or
    overwrites the own property [key], except for the name [__proto__]: that
    assignment reaches the setter inherited from [Object.prototype], which
    ignores a value that is not an object, and no property is created. *)
Definition assign (key : string) (v : Number)
    (obj : gmap string Number) : gmap string Number :=
  if String.eqb key "__proto__" then obj else <[key := v]> obj.

(** The loop [for (const key in inputs) dataToSend[key] = ...], started from
    the empty object. *)
Definition dataToSend (inputs : gmap string FieldValue) : gmap string Number :=
  map_fold (fun key value acc => assign key (coerce value) acc) ∅ inputs.

(** [handleSubmit] up to its [await]: both outputs are cleared, and the
    payload built from the inputs is posted. *)
Definition handleSubmit_begin (st : State) : State * gmap string Number :=
  (setResults JNull (setError JNull st), dataToSend (inputs st)).

(** [handleSubmit] after its [await].  In the [catch] branch the member
    access [err.response.data.error] throws when the body is [null]; that
    exception leaves the handler and no state is set.  The [console.error]
    call has no effect on the view and is left out. *)
Definition handleSubmit_resume (r : Axios.Reply) (st : State) : State :=
  match Axios.post r with
  | inl response => setResults (Axios.data response) st
  | inr err =>
      match Axios.response err with
      | Some response =>
          if JS.nullish (Axios.data response) then st
          else setError (JS.prop "error" (Axios.data response)) st
      | None => setError (JStr "An unexpected error occurred.") st
      end
  end.

(** A whole run of [handleSubmit] with nothing happening during the wait. *)
Definition handleSubmit (r : Axios.Reply) (st : State) : State :=
  handleSubmit_resume r (fst (handleSubmit_begin st)).

(** The view. The handlers passed down ([onInputChange], [onSubmit]) are the
    two above and do not appear as props. *)
Definition render (st : State) : Node :=
  Elem "div" [("className", JStr "App")]
    [ Elem "h1" [] [Text "Optimal Build Calculator"];
      InputForm (inputs st);
      VDom.jsx_and (error st)
        (Elem "div" [("className", JStr "error-message")] [Expr (error st)]);
      VDom.jsx_and (results st) (VDom.mount (ResultsDisplay (results st))) ].

(** The message on display: the content of the [error-message] element. *)
Definition displayed_error (st : State) : list (list Node) :=
  map (fun n => match n with Elem _ _ ch => ch | _ => [] end)
      (VDom.by_class "error-message" (render st)).

(** *** The view as an event-driven machine *)

Inductive Event : Type :=
  | Change (name value : string)
  | Submit
  | Settle (r : Axios.Reply).

(** The state together with the number of requests still waiting. *)
Record View : Type := { state : State; inflight : nat }.

Definition start : View := {| state := initial; inflight := 0 |}.

(** One event.  A change event can only come from an [<input>] that the form
    currently shows; a request can only settle when one is waiting. *)
Definition step (e : Event) (v : View) : option View :=
  match e with
  | Change name value =>
      if bool_decide (name ∈ VDom.input_names (InputForm (inputs (state v))))
      then Some {| state := handleInputChange name value (state v);
                   inflight := inflight v |}
      else None
  | Submit =>
      Some {| state := fst (handleSubmit_begin (state v));
              inflight := S (inflight v) |}
  | Settle r =>
      match inflight v with
      | O => None
      | S n =>
          Some {| state := handleSubmit_resume r (state v); inflight := n |}
      end
  end.

Fixpoint run (es : list Event) (v : View) : option View :=
  match es with
  | [] => Some v
  | e :: es' =>
      match step e v with
      | Some v' => run es' v'
      | None => None
      end
  end.

(** A short session: two edits, a submission that succeeds, one more edit. *)
Definition session : list Event :=
  [ Change "K" "12"; Change "F" "-"; Submit;
    Settle (Axios.Response 200
              (JObj [ ("optimal_x", JNum (Num.of_Z 1));
                      ("optimal_y", JNum (Num.of_Z 2));
                      ("optimal_z", JNum (Num.of_Z 3));
                      ("max_damage", JNum (Num.of_Z 4)) ]));
    Change "I" "" ].

Definition after_session : View :=
  {| state :=
       {| inputs :=
            updateField "I" ""
              (updateField "F" "-" (updateField "K" "12" initial_inputs));
          results :=
            JObj [ ("optimal_x", JNum (Num.of_Z 1));
                   ("optimal_y", JNum (Num.of_Z 2));
                   ("optimal_z", JNum (Num.of_Z 3));
                   ("max_damage", JNum (Num.of_Z 4)) ];
          error := JNull |};
     inflight := 0 |}.

(** No submission starts while another one is waiting. *)
Fixpoint non_overlapping (es : list Event) (v : View) : bool :=
  match es with
  | [] => true
  | e :: es' =>
      match e with
      | Submit => Nat.eqb (inflight v) 0
      | _ => true
      end
      && match step e v with
         | Some v' => non_overlapping es' v'
         | None => true
         end
  end.

(** What holds between events when submissions do not overlap: at most one
    request waits, while it waits both outputs are empty, and at most one
    output is set. *)
Definition sequential_inv (v : View) : Prop :=
  inflight v <= 1 /\
  (inflight v = 1 ->
   results (state v) = JNull /\ error (state v) = JNull) /\
  (results (state v) = JNull \/ error (state v) = JNull).

End App.

(** ** DamageHeatmap *)

Module Heatmap.

Record HeatmapSample : Type :=
  { x : Number; y : Number; z : Number; damage : Number }.

(** The one trace handed to [Plot]. *)
Record Trace : Type :=
  { trace_x : list Number;
    trace_y : list Number;
    trace_z : list Number;
    type : string;
    colorscale : string;
    colorbar_title : string;
    hovertemplate : string;
    customdata : list (list Number) }.

Record Layout : Type :=
  { title : string; xaxis_title : string; yaxis_title : string }.

Record Plot : Type := { plotData : list Trace; plotLayout : Layout }.

(** [data] is [None] when the prop is absent ([undefined] or [null]). *)
Definition DamageHeatmap (data : option (list HeatmapSample)) : option Plot :=
  match data with
  | None => None
  | Some d =>
      if Nat.eqb (length d) 0 then None
      else
        let x_coords := map x d in
        let y_coords := map y d in
        let damage_coords := map damage d in
        let customData := map (fun s => [z s; damage s]) d in
        Some
          {| plotData :=
               [ {| trace_x := x_coords;
                    trace_y := y_coords;
                    trace_z := damage_coords;
                    type := "heatmap";
                    colorscale := "Jet";
                    colorbar_title := "Damage";
                    hovertemplate :=
                      "Attack Points (x): %{x}<br>" ++
                      "Crit Rate Points (y): %{y}<br>" ++
                      "Crit Damage Points (z): %{customdata[0]}<br>" ++
                      "Damage: %{customdata[1]:.2f}<br>" ++
                      "<extra></extra>";
                    customdata := customData |} ];
             plotLayout :=
               {| title := "Damage Heatmap";
                  xaxis_title := "Attack Points (x)";
                  yaxis_title := "Crit Rate Points (y)" |} |}
  end.

End Heatmap.

(** ** Reading the view and the session *)

Module Observe.

(** The [name] and [value] props of every [<input>] in a tree. *)
Fixpoint input_values (n : Node) : list (string * JSValue) :=
  match n with
  | Elem tag props children =>
      (if String.eqb tag "input"
       then match JS.lookup_prop "name" props, JS.lookup_prop "value" props with
            | Some (JStr s), Some v => [(s, v)]
            | _, _ => []
            end
       else [])
        ++ flat_map input_values children
  | _ => []
  end.

(** The change events of a session applied in order to an input mapping;
    the other events are skipped. *)
Definition replay (es : list App.Event)
    (inputs : gmap string FieldValue) : gmap string FieldValue :=
  fold_left
    (fun m e =>
       match e with
       | App.Change name value => App.updateField name value m
       | _ => m
       end)
    es inputs.

(** A string of white space only. *)
Fixpoint blank (s : string) : bool :=
  match s with
  | EmptyString => true
  | String c s' => Parse.is_white_space c && blank s'
  end.

(** A character with which a [StrDecimalLiteral] can begin: a digit, a sign,
    the decimal point, or the [I] of [Infinity]. *)
Definition starts_literal (c : ascii) : bool :=
  Parse.is_digit c || Parse.is_dot c || Parse.is_plus c || Parse.is_minus c
  || Ascii.eqb "I" c.

(** A character with which an unsigned literal can begin. *)
Definition starts_unsigned (c : ascii) : bool :=
  Parse.is_digit c || Parse.is_dot c || Ascii.eqb "I" c.

(** Unary minus on a Number. *)
Definition negate (n : Number) : Number :=
  match n with
  | NaN => NaN
  | Infinity neg => Infinity (negb neg)
  | Finite neg q => Finite (negb neg) q
  end.

(** A dataset of two samples. *)
Definition two_samples : list Heatmap.HeatmapSample :=
  [ {| Heatmap.x := Num.of_Z 1; Heatmap.y := Num.of_Z 2;
       Heatmap.z := Num.of_Z 3; Heatmap.damage := Num.of_Z 40 |};
    {| Heatmap.x := Num.of_Z 2; Heatmap.y := Num.of_Z 1;
       Heatmap.z := Num.of_Z 3; Heatmap.damage := Num.of_Z 50 |} ].

(** A zero of either sign becomes [+0]; other numbers are left alone. *)
Definition unsigned_zero (n : Number) : Number :=
  match n with
  | Finite _ q => if Qeq_bool q 0 then Num.zero else n
  | _ => n
  end.

End Observe.

(** ** The handlers of the second top-level view

    [InputForm.js] is followed by another version of [App], which coerces on
    every change instead of at submission and has a presets selector.  Its
    state is the same triple; its handlers are modelled here.  The code of
    [handleSubmit] after the [await] is the same as in [App.js]. *)

Module AppOnChange.

(** [x || 0] on a Number. *)
Definition or_zero (x : Number) : Number :=
  if Num.truthy x then x else Num.zero.

(** [prev => ({ ...prev, [name]: parseFloat(value) || 0 })] *)
Definition updateField (name value : string)
    (prev : gmap string FieldValue) : gmap string FieldValue :=
  <[name := FNum (or_zero (parseFloat (FStr value)))]> prev.

Definition handleInputChange (name value : string) (st : App.State) : App.State :=
  App.setInputs (updateField name value) st.

(** [setInputs(presetValues)] *)
Definition handlePresetSelect (presetValues : gmap string FieldValue)
    (st : App.State) : App.State :=
  App.setInputs (fun _ => presetValues) st.

(** [handleSubmit] up to its [await]: the inputs are posted as they are. *)
Definition handleSubmit_begin (st : App.State)
    : App.State * gmap string FieldValue :=
  (App.setResults JNull (App.setError JNull st), App.inputs st).

Definition handleSubmit_resume (r : Axios.Reply) (st : App.State) : App.State :=
  App.handleSubmit_resume r st.

End AppOnChange.

(** * Properties *)

(** ** The scanner *)

Section Scanner.

Import Parse.

Lemma stops_digit t : stops t -> head_ok (fun c => negb (is_digit c)) t.
Proof.
  destruct t as [|c t]; simpl; [done|]. unfold continues.
  destruct (is_digit c); simpl; [discriminate|done].
Qed.

Lemma stops_exponent t :
  stops t -> head_ok (fun c => negb (is_exponent_indicator c)) t.
Proof.
  destruct t as [|c t]; simpl; [done|]. unfold continues.
  destruct (is_exponent_indicator c); [|done].
  rewrite !orb_true_r. discriminate.
Qed.

Lemma stops_dot t : stops t -> head_ok (fun c => negb (is_dot c)) t.
Proof.
  destruct t as [|c t]; simpl; [done|]. unfold continues.
  destruct (is_dot c); [|done].
  rewrite orb_true_r. discriminate.
Qed.

Lemma DecimalDigits_stop t :
  head_ok (fun c => negb (is_digit c)) t -> DecimalDigits t = ([], t).
Proof.
  destruct t as [|c t]; simpl; [done|].
  intros H. apply negb_true_iff in H. by rewrite H.
Qed.

Lemma DecimalDigits_app s t ds r :
  DecimalDigits s = (ds, r) ->
  head_ok (fun c => negb (is_digit c)) t ->
  DecimalDigits (s ++ t) = (ds, r ++ t).
Proof.
  revert ds. induction s as [|c s IH]; intros ds Hs Ht; simpl in *.
  - inversion Hs; subst. by apply DecimalDigits_stop.
  - destruct (is_digit c).
    + destruct (DecimalDigits s) as [ds' r'] eqn:E.
      inversion Hs; subst. by rewrite (IH ds').
    + by inversion Hs; subst.
Qed.

Lemma DecimalDigits_nonempty s d ds r :
  DecimalDigits s = (d :: ds, r) -> exists c s', s = String c s' /\ is_digit c = true.
Proof.
  destruct s as [|c s]; simpl; [discriminate|].
  destruct (is_digit c) eqn:E; [eauto|discriminate].
Qed.

Lemma Sign_app c s t :
  Sign (String c s ++ t) = (fst (Sign (String c s)), snd (Sign (String c s)) ++ t).
Proof. simpl. destruct (is_minus c); [done|]. by destruct (is_plus c). Qed.

Lemma ExponentPart_stop t : stops t -> ExponentPart t = (0%Z, t).
Proof.
  intros Ht. destruct t as [|c t]; simpl; [done|].
  apply stops_exponent in Ht. simpl in Ht.
  apply negb_true_iff in Ht. by rewrite Ht.
Qed.

Lemma ExponentPart_app s t e :
  ExponentPart s = (e, EmptyString) -> stops t -> ExponentPart (s ++ t) = (e, t).
Proof.
  intros Hs Ht. destruct s as [|c s1]; simpl in *.
  - inversion Hs; subst. by apply ExponentPart_stop.
  - destruct (is_exponent_indicator c); [|discriminate].
    destruct (Sign s1) as [neg s2] eqn:E1.
    destruct (DecimalDigits s2) as [ds s3] eqn:E2.
    destruct ds as [|d ds]; [discriminate|]. inversion Hs; subst.
    destruct (DecimalDigits_nonempty _ _ _ _ E2) as (c2 & s2' & -> & _).
    destruct s1 as [|c1 s1]; [simpl in E1; discriminate|].
    pose proof (Sign_app c1 s1 t) as HS. rewrite E1 in HS. simpl in HS.
    simpl. simpl in HS. rewrite HS.
    rewrite (DecimalDigits_app _ t _ _ E2) by (by apply stops_digit). done.
Qed.

Lemma drop_prefix_app p s r t :
  drop_prefix p s = Some r -> drop_prefix p (s ++ t) = Some (r ++ t).
Proof.
  revert s. induction p as [|a p IH]; intros s H; simpl in *.
  - by inversion H.
  - destruct s as [|b s]; [discriminate|]. simpl.
    destruct (Ascii.eqb a b); [by apply IH|discriminate].
Qed.

(** A string that begins with a digit or a point does not begin with
    [Infinity]. *)
Lemma drop_prefix_Infinity_head c s :
  is_digit c || is_dot c = true -> drop_prefix "Infinity" (String c s) = None.
Proof.
  intros H.
  change (drop_prefix "Infinity" (String c s))
    with (if Ascii.eqb "I" c then drop_prefix "nfinity" s else None).
  destruct (Ascii.eqb "I" c) eqn:E; [|done].
  apply Ascii.eqb_eq in E. subst c. discriminate.
Qed.

Lemma StrUnsignedDecimalLiteral_nonempty s r :
  StrUnsignedDecimalLiteral s = Some r -> s <> EmptyString.
Proof. intros H ->. discriminate. Qed.

Lemma StrUnsignedDecimalLiteral_app s t m :
  StrUnsignedDecimalLiteral s = Some (m, EmptyString) -> stops t ->
  StrUnsignedDecimalLiteral (s ++ t) = Some (m, t).
Proof.
  intros Hs Ht. unfold StrUnsignedDecimalLiteral in *.
  destruct (drop_prefix "Infinity" s) as [r|] eqn:EI.
  { inversion Hs; subst. by rewrite (drop_prefix_app _ _ _ t EI). }
  destruct (DecimalDigits s) as [ip s1] eqn:Ei.
  assert (drop_prefix "Infinity" (s ++ t) = None) as ->.
  { destruct s as [|c s]; [simpl in Ei; inversion Ei; subst; discriminate|].
    apply drop_prefix_Infinity_head. simpl in Ei.
    destruct (is_digit c); [done|]. inversion Ei; subst.
    simpl. destruct (is_dot c) eqn:Ed; [done|]. discriminate. }
  destruct s1 as [|c s2].
  - destruct ip as [|d ip]; [discriminate|]. inversion Hs; subst.
    rewrite (DecimalDigits_app _ t _ _ Ei) by (by apply stops_digit).
    change (EmptyString ++ t) with t. destruct t as [|c t]; [done|].
    pose proof (stops_dot _ Ht) as Hd. simpl in Hd.
    apply negb_true_iff in Hd. rewrite Hd.
    by rewrite (ExponentPart_stop (String c t)).
  - destruct (is_dot c) eqn:Ed.
    + destruct (DecimalDigits s2) as [fp s3] eqn:Ef.
      rewrite (DecimalDigits_app _ t _ _ Ei) by (by apply stops_digit).
      change (String c s2 ++ t) with (String c (s2 ++ t)).
      cbv iota beta. rewrite Ed.
      rewrite (DecimalDigits_app _ t _ _ Ef) by (by apply stops_digit).
      destruct (ExponentPart s3) as [e s4] eqn:Ee.
      assert (s4 = EmptyString) as ->
        by (destruct ip, fp; inversion Hs; done).
      rewrite (ExponentPart_app _ t _ Ee Ht).
      destruct ip, fp; inversion Hs; done.
    + destruct ip as [|d ip]; [discriminate|].
      rewrite (DecimalDigits_app _ t _ _ Ei) by (by apply stops_digit).
      change (String c s2 ++ t) with (String c (s2 ++ t)).
      cbv iota beta. rewrite Ed.
      destruct (ExponentPart (String c s2)) as [e s4] eqn:Ee.
      inversion Hs; subst.
      change (String c (s2 ++ t)) with (String c s2 ++ t).
      by rewrite (ExponentPart_app _ t _ Ee Ht).
Qed.

Lemma StrDecimalLiteral_app s t v :
  StrDecimalLiteral s = Some (v, EmptyString) -> stops t ->
  StrDecimalLiteral (s ++ t) = Some (v, t).
Proof.
  intros Hs Ht. unfold StrDecimalLiteral in *.
  destruct s as [|c s]; [discriminate|].
  rewrite Sign_app. destruct (Sign (String c s)) as [neg s1]. simpl.
  destruct (StrUnsignedDecimalLiteral s1) as [[m r]|] eqn:E; [|discriminate].
  assert (r = EmptyString) as -> by (destruct m; inversion Hs; done).
  rewrite (StrUnsignedDecimalLiteral_app _ t _ E Ht).
  destruct m; inversion Hs; done.
Qed.

Lemma TrimStart_app s t :
  TrimStart s <> EmptyString -> TrimStart (s ++ t) = TrimStart s ++ t.
Proof.
  induction s as [|c s IH]; simpl; [done|].
  destruct (is_white_space c); [apply IH|done].
Qed.

(** What follows a complete literal and cannot extend it is ignored. *)
Lemma parseFloat_string_prefix p t v :
  StrDecimalLiteral (TrimStart p) = Some (v, EmptyString) -> stops t ->
  parseFloat_string (p ++ t) = v.
Proof.
  intros Hp Ht. unfold parseFloat_string.
  rewrite TrimStart_app by (intros E; rewrite E in Hp; discriminate).
  by rewrite (StrDecimalLiteral_app _ t _ Hp Ht).
Qed.

Lemma StrDecimalLiteral_not_NaN s v r :
  StrDecimalLiteral s = Some (v, r) -> Num.isNaN v = false.
Proof.
  unfold StrDecimalLiteral. destruct (Sign s) as [neg s1].
  destruct (StrUnsignedDecimalLiteral s1) as [[[|q] r']|]; intros H;
    inversion H; done.
Qed.

End Scanner.

(** ** The submitted payload *)

Section Payload.

Implicit Types (inputs : gmap string FieldValue) (st : App.State).

(** The loop visits every key once: the payload holds, under each key of the
    inputs other than [__proto__], the coerced value of that input, and
    nothing else. *)
Lemma dataToSend_fmap inputs :
  App.dataToSend inputs = App.coerce <$> delete "__proto__" inputs.
Proof.
  unfold App.dataToSend.
  apply (map_fold_weak_ind
           (fun (acc : gmap string Number) (m : gmap string FieldValue) =>
              acc = App.coerce <$> delete "__proto__" m)).
  - by rewrite delete_empty, fmap_empty.
  - intros i v m acc Hi ->. unfold App.assign.
    destruct (String.eqb_spec i "__proto__") as [->|Hne].
    + by rewrite delete_insert_eq.
    + by rewrite delete_insert_ne, fmap_insert.
Qed.

Lemma dataToSend_lookup inputs key :
  key <> "__proto__" ->
  App.dataToSend inputs !! key = App.coerce <$> inputs !! key.
Proof.
  intros Hne. by rewrite dataToSend_fmap, lookup_fmap, lookup_delete_ne.
Qed.

Lemma dataToSend_dom inputs :
  dom (App.dataToSend inputs) = dom inputs ∖ {["__proto__"]}.
Proof. by rewrite dataToSend_fmap, dom_fmap_L, dom_delete_L. Qed.

Lemma coerce_NaN value :
  Num.isNaN (parseFloat value) = true -> App.coerce value = Num.zero.
Proof. unfold App.coerce. by intros ->. Qed.

Lemma coerce_number value :
  Num.isNaN (parseFloat value) = false -> App.coerce value = parseFloat value.
Proof. unfold App.coerce. by intros ->. Qed.

(** C2. Whenever a field of the input mapping holds the empty string, or a
    string for which [parseFloat] yields not-a-number, the payload that
    [handleSubmit] posts holds 0 under that key.  (The key is any property
    name that an assignment can create, so any name but [__proto__]; the six
    keys of the form are such names.) *)
Theorem payload_unparsable_field_is_zero st key s :
  key <> "__proto__" ->
  App.inputs st !! key = Some (FStr s) ->
  s = EmptyString \/ Num.isNaN (Parse.parseFloat_string s) = true ->
  snd (App.handleSubmit_begin st) !! key = Some Num.zero.
Proof.
  intros Hne Hkey Hs. simpl. rewrite dataToSend_lookup, Hkey by done.
  simpl. f_equal.
  apply coerce_NaN. simpl. destruct Hs as [->|Hs]; [reflexivity|exact Hs].
Qed.

Lemma payload_unparsable_field_is_zero_witness :
  snd (App.handleSubmit_begin (App.handleInputChange "F" "-" App.initial)) !! "F"
  = Some Num.zero.
Proof.
  apply (payload_unparsable_field_is_zero _ "F" "-").
  - discriminate.
  - reflexivity.
  - right. reflexivity.
Defined.

(** C3. When every field of the input mapping holds a string that
    [parseFloat] reads as a number, the payload has the same keys as the
    mapping and holds under each key exactly the value [parseFloat] reads
    from the stored string.  (The mapping has no key [__proto__], which an
    assignment cannot create; the six keys of the form are not that name.) *)
Theorem payload_numeric_fields_are_parsed st :
  App.inputs st !! "__proto__" = None ->
  (forall key value, App.inputs st !! key = Some value ->
     exists s, value = FStr s /\ Num.isNaN (Parse.parseFloat_string s) = false) ->
  snd (App.handleSubmit_begin st) = parseFloat <$> App.inputs st.
Proof.
  intros Hproto Hall. simpl. rewrite dataToSend_fmap, delete_id by done.
  apply map_eq. intros key. rewrite !lookup_fmap.
  destruct (App.inputs st !! key) as [value|] eqn:E; [|done]. simpl. f_equal.
  destruct (Hall key value E) as (s & -> & Hs). by apply coerce_number.
Qed.

Lemma payload_numeric_fields_are_parsed_witness :
  snd (App.handleSubmit_begin App.all_typed)
  = parseFloat <$> App.inputs App.all_typed.
Proof.
  apply payload_numeric_fields_are_parsed.
  { reflexivity. }
  intros key value H. apply elem_of_map_to_list in H.
  vm_compute in H.
  repeat (apply elem_of_cons in H; destruct H as [H|H];
          [inversion H; subst; eexists; split; reflexivity|]).
  by apply elem_of_nil in H.
Defined.

(** C10. When a field holds a complete numeric literal [p] followed by text
    [t] that cannot extend it (as in ["5abc"]), the payload holds the value of
    [p] under that key.  In general the payload holds 0 under a key exactly
    when [parseFloat] of the stored value is not-a-number, and the parsed
    value otherwise. *)
Theorem payload_numeric_prefix st key p t v :
  key <> "__proto__" ->
  App.inputs st !! key = Some (FStr (p ++ t)) ->
  Parse.StrDecimalLiteral (Parse.TrimStart p) = Some (v, EmptyString) ->
  Parse.stops t ->
  snd (App.handleSubmit_begin st) !! key = Some v /\
  Num.isNaN v = false /\
  (forall key' value, key' <> "__proto__" ->
     App.inputs st !! key' = Some value ->
     snd (App.handleSubmit_begin st) !! key'
     = Some (if Num.isNaN (parseFloat value) then Num.zero else parseFloat value)).
Proof.
  intros Hne Hkey Hp Ht.
  pose proof (StrDecimalLiteral_not_NaN _ _ _ Hp) as Hv.
  split; [|split; [exact Hv|]].
  - simpl. rewrite dataToSend_lookup, Hkey by done. simpl. f_equal.
    rewrite coerce_number; simpl; by rewrite (parseFloat_string_prefix p t v).
  - intros key' value Hne' Hk. simpl. by rewrite dataToSend_lookup, Hk.
Qed.

Lemma payload_numeric_prefix_witness :
  snd (App.handleSubmit_begin (App.handleInputChange "K" "5abc" App.initial)) !! "K"
  = Some (Num.of_Z 5) /\
  Num.isNaN (Num.of_Z 5) = false /\
  (forall key' value, key' <> "__proto__" ->
     App.inputs (App.handleInputChange "K" "5abc" App.initial) !! key' = Some value ->
     snd (App.handleSubmit_begin (App.handleInputChange "K" "5abc" App.initial)) !! key'
     = Some (if Num.isNaN (parseFloat value) then Num.zero else parseFloat value)).
Proof.
  apply (payload_numeric_prefix _ "K" "5" "abc").
  - discriminate.
  - reflexivity.
  - reflexivity.
  - reflexivity.
Defined.

End Payload.

(** ** The input mapping *)

Section Inputs.

Implicit Types (inputs : gmap string FieldValue) (st : App.State).

(** C5. [handleInputChange] stores the raw text of the event under the
    event's name, whatever the text is: nothing is parsed or coerced when a
    key is pressed. *)
Theorem handleInputChange_stores_raw_text st name value :
  App.inputs (App.handleInputChange name value st) !! name = Some (FStr value).
Proof. simpl. unfold App.updateField. apply lookup_insert_eq. Qed.

(** C9. [handleInputChange] leaves the value stored under every other key
    as it was. *)
Theorem handleInputChange_frame st name value other :
  other <> name ->
  App.inputs (App.handleInputChange name value st) !! other
  = App.inputs st !! other.
Proof.
  intros Hne. simpl. unfold App.updateField. by apply lookup_insert_ne.
Qed.

Lemma handleInputChange_frame_witness :
  App.inputs (App.handleInputChange "K" "-" App.initial) !! "CD0"
  = App.inputs App.initial !! "CD0".
Proof. apply handleInputChange_frame. discriminate. Defined.

Lemma handleInputChange_dom st name value :
  dom (App.inputs (App.handleInputChange name value st))
  = {[name]} ∪ dom (App.inputs st).
Proof. simpl. unfold App.updateField. apply dom_insert_L. Qed.

Lemma initial_inputs_dom : dom App.initial_inputs = App.recognized_keys.
Proof.
  unfold App.initial_inputs, App.recognized_keys.
  rewrite !dom_insert_L, dom_empty_L. set_solver.
Qed.

(** The form shows one [<input>] per key of the mapping, named after it. *)
Lemma InputForm_input_names inputs :
  VDom.input_names (InputForm inputs) = (map_to_list inputs).*1.
Proof.
  unfold InputForm. cbn [VDom.input_names]. simpl.
  rewrite flat_map_app. simpl. rewrite app_nil_r.
  induction (map_to_list inputs) as [|[key value] l IH]; simpl; [done|].
  by rewrite IH.
Qed.

Lemma InputForm_names_dom inputs name :
  name ∈ VDom.input_names (InputForm inputs) <-> name ∈ dom inputs.
Proof.
  rewrite InputForm_input_names, elem_of_dom. split.
  - intros H. apply list_elem_of_fmap in H as ([k v] & -> & H).
    apply elem_of_map_to_list in H. eauto.
  - intros [v H]. apply list_elem_of_fmap. exists (name, v).
    split; [done|]. by apply elem_of_map_to_list.
Qed.

Lemma handleSubmit_resume_inputs r st :
  App.inputs (App.handleSubmit_resume r st) = App.inputs st.
Proof.
  unfold App.handleSubmit_resume.
  destruct (Axios.post r) as [resp|err]; [done|].
  destruct (Axios.response err) as [resp|]; [|done].
  by destruct (JS.nullish (Axios.data resp)).
Qed.

Lemma step_dom e v v' :
  App.step e v = Some v' ->
  dom (App.inputs (App.state v')) = dom (App.inputs (App.state v)).
Proof.
  destruct e as [name value| |r]; simpl.
  - case_bool_decide as Hin; [|discriminate]. intros Hv.
    injection Hv as <-. apply InputForm_names_dom in Hin. simpl.
    unfold App.updateField. rewrite dom_insert_L.
    apply subseteq_union_1_L. by apply singleton_subseteq_l.
  - intros Hv. by injection Hv as <-.
  - destruct (App.inflight v); [discriminate|]. intros Hv.
    injection Hv as <-. simpl. by rewrite handleSubmit_resume_inputs.
Qed.

Lemma run_dom es v v' :
  App.run es v = Some v' ->
  dom (App.inputs (App.state v')) = dom (App.inputs (App.state v)).
Proof.
  revert v. induction es as [|e es IH]; intros v; simpl.
  - intros Hv. by injection Hv as <-.
  - destruct (App.step e v) as [v1|] eqn:E; [|discriminate].
    intros H. rewrite (IH _ H). by apply (step_dom e).
Qed.

(** C4, as the code has it.  [handleInputChange] has no list of accepted
    names: it stores the text under the name the event carries, so the keys
    afterwards are the old keys and that name.  The form only shows inputs
    named after keys that are already there, so in every state reached from
    the initial one through events of the view the mapping, and with it the
    posted payload, has exactly the six keys. *)
Theorem reachable_payload_has_six_keys es v :
  App.run es App.start = Some v ->
  dom (snd (App.handleSubmit_begin (App.state v))) = App.recognized_keys /\
  (forall name value,
     dom (App.inputs (App.handleInputChange name value (App.state v)))
     = {[name]} ∪ App.recognized_keys).
Proof.
  intros Hrun. apply run_dom in Hrun. simpl in Hrun.
  rewrite initial_inputs_dom in Hrun. split.
  - simpl. rewrite dataToSend_dom, Hrun. apply difference_disjoint_L.
    apply disjoint_singleton_r. rewrite <- initial_inputs_dom.
    apply not_elem_of_dom. reflexivity.
  - intros name value. by rewrite handleInputChange_dom, Hrun.
Qed.

Lemma reachable_payload_has_six_keys_witness :
  dom (snd (App.handleSubmit_begin (App.state App.after_session)))
  = App.recognized_keys /\
  (forall name value,
     dom (App.inputs (App.handleInputChange name value (App.state App.after_session)))
     = {[name]} ∪ App.recognized_keys).
Proof.
  apply (reachable_payload_has_six_keys App.session).
  vm_compute. reflexivity.
Defined.

(** C4, as stated, fails: for the unrecognized name [X] the operation is not
    a no-op, and a payload built afterwards has a seventh field. *)
Lemma handleInputChange_unrecognized_key_is_stored :
  ("X" ∉ App.recognized_keys) /\
  App.handleInputChange "X" "1" App.initial <> App.initial /\
  dom (snd (App.handleSubmit_begin (App.handleInputChange "X" "1" App.initial)))
  <> App.recognized_keys.
Proof.
  assert ("X" ∉ App.recognized_keys) as HX.
  { rewrite <- initial_inputs_dom. apply not_elem_of_dom. reflexivity. }
  split; [exact HX|]. split.
  - intros H. apply (f_equal (fun st => App.inputs st !! "X")) in H.
    discriminate H.
  - intros H. apply HX. rewrite <- H. cbn [snd App.handleSubmit_begin].
    rewrite dataToSend_dom, handleInputChange_dom. set_solver.
Qed.

End Inputs.

(** ** Results and errors *)

Section Outcome.

Implicit Types (st : App.State) (v : App.View) (r : Axios.Reply).

Lemma handleSubmit_begin_clears st :
  App.results (fst (App.handleSubmit_begin st)) = JNull /\
  App.error (fst (App.handleSubmit_begin st)) = JNull.
Proof. by split. Qed.

(** After the wait one of the two outputs is written, on a state in which
    both were empty. *)
Lemma handleSubmit_resume_exclusive r st :
  App.results st = JNull -> App.error st = JNull ->
  App.results (App.handleSubmit_resume r st) = JNull \/
  App.error (App.handleSubmit_resume r st) = JNull.
Proof.
  intros Hr He. unfold App.handleSubmit_resume.
  destruct (Axios.post r) as [resp|err]; [by right|].
  destruct (Axios.response err) as [resp|]; [|by left].
  destruct (JS.nullish (Axios.data resp)); by left.
Qed.

Lemma step_sequential_inv e v v' :
  App.sequential_inv v ->
  match e with App.Submit => App.inflight v = 0 | _ => True end ->
  App.step e v = Some v' -> App.sequential_inv v'.
Proof.
  intros (Hle & Hwait & Hex) Hseq. destruct e as [name value| |r]; simpl.
  - case_bool_decide; [|discriminate]. intros Hv. injection Hv as <-.
    unfold App.sequential_inv. simpl. auto.
  - intros Hv. injection Hv as <-.
    unfold App.sequential_inv. simpl. rewrite Hseq. auto.
  - destruct (App.inflight v) as [|n] eqn:En; [discriminate|].
    intros Hv. injection Hv as <-.
    assert (n = 0) as -> by lia. destruct (Hwait eq_refl) as [Hr He].
    unfold App.sequential_inv. simpl. split; [lia|]. split; [discriminate|].
    by apply handleSubmit_resume_exclusive.
Qed.

Lemma run_sequential_inv es v v' :
  App.sequential_inv v -> App.non_overlapping es v = true ->
  App.run es v = Some v' -> App.sequential_inv v'.
Proof.
  revert v. induction es as [|e es IH]; intros v Hinv; simpl.
  - intros _ Hv. by injection Hv as <-.
  - intros Hseq. apply andb_true_iff in Hseq as [He Hes].
    destruct (App.step e v) as [v1|] eqn:E; [|discriminate].
    apply IH; [|exact Hes]. apply (step_sequential_inv e v); [done| |done].
    destruct e; [done| |done]. by apply Nat.eqb_eq.
Qed.

(** C6. In every state that a sequence of events with non-overlapping
    submissions leads to, [results] or [error] is [null]; and [handleSubmit]
    sets both to [null] before it posts the request. *)
Theorem results_and_error_exclusive es v st :
  App.non_overlapping es App.start = true ->
  App.run es App.start = Some v ->
  (App.results (App.state v) = JNull \/ App.error (App.state v) = JNull) /\
  App.results (fst (App.handleSubmit_begin st)) = JNull /\
  App.error (fst (App.handleSubmit_begin st)) = JNull.
Proof.
  intros Hseq Hrun. split; [|apply handleSubmit_begin_clears].
  apply (run_sequential_inv es App.start v); [|done|done].
  unfold App.sequential_inv. simpl. split; [lia|]. auto.
Qed.

(** Without that discipline the two can both be set: a second submission
    started while the first one waits, the first answered with a result and
    the second with an error. *)
Example overlapping_submissions_set_both :
  exists v,
    App.run [ App.Submit; App.Submit;
              App.Settle (Axios.Response 200 (JObj [("max_damage", JNum (Num.of_Z 4))]));
              App.Settle Axios.NoResponse ] App.start = Some v /\
    App.results (App.state v) <> JNull /\ App.error (App.state v) <> JNull.
Proof.
  eexists. split; [vm_compute; reflexivity|]. split; discriminate.
Qed.

Lemma results_and_error_exclusive_witness :
  (App.results (App.state App.after_session) = JNull \/
   App.error (App.state App.after_session) = JNull) /\
  App.results (fst (App.handleSubmit_begin App.initial)) = JNull /\
  App.error (fst (App.handleSubmit_begin App.initial)) = JNull.
Proof.
  apply (results_and_error_exclusive App.session).
  - vm_compute. reflexivity.
  - vm_compute. reflexivity.
Defined.

(** The error that a failed submission leaves in the state. *)
Lemma handleSubmit_failure_error r st :
  Axios.fails r = true ->
  App.error (App.handleSubmit r st) =
  match r with
  | Axios.NoResponse => JStr "An unexpected error occurred."
  | Axios.Response _ data =>
      if JS.nullish data then JNull else JS.prop "error" data
  end.
Proof.
  unfold Axios.fails, App.handleSubmit, App.handleSubmit_resume.
  destruct r as [|status data]; simpl; [done|].
  destruct (Axios.validateStatus status); [discriminate|]. simpl.
  by destruct (JS.nullish data).
Qed.

(** A response body with an [error] field: that field is the message. *)
Lemma handleSubmit_error_field status props msg st :
  Axios.validateStatus status = false ->
  JS.lookup_prop "error" props = Some msg ->
  App.error (App.handleSubmit (Axios.Response status (JObj props)) st) = msg /\
  App.results (App.handleSubmit (Axios.Response status (JObj props)) st) = JNull.
Proof.
  intros Hs Hp. unfold App.handleSubmit, App.handleSubmit_resume. simpl.
  rewrite Hs. simpl. by rewrite Hp.
Qed.

Example error_400_K_must_be_positive :
  let st := App.handleSubmit
              (Axios.Response 400 (JObj [("error", JStr "K must be positive")]))
              App.initial in
  App.displayed_error st = [[Expr (JStr "K must be positive")]] /\
  App.results st = JNull.
Proof. vm_compute. split; reflexivity. Qed.

(** C1 on the code: a submission answered with status 500 and a body that is
    not JSON (axios then hands over the raw text) fails, yet the error set is
    [undefined], not the fallback text, and the view shows no message at
    all.  The same happens for a JSON body without an [error] field. *)
Theorem error_without_error_field_is_undefined :
  let r := Axios.Response 500 (JStr "Internal Server Error") in
  let st := App.handleSubmit r App.initial in
  Axios.fails r = true /\
  App.error st = JUndefined /\
  App.error st <> JStr "An unexpected error occurred." /\
  App.displayed_error st = [] /\
  App.error (App.handleSubmit (Axios.Response 500 (JObj [])) App.initial)
  = JUndefined /\
  App.error (App.handleSubmit Axios.NoResponse App.initial)
  = JStr "An unexpected error occurred.".
Proof.
  vm_compute. repeat split; try reflexivity. discriminate.
Qed.

Lemma by_class_InputForm cls inputs :
  VDom.by_class cls (InputForm inputs) = [].
Proof.
  unfold InputForm. cbn [VDom.by_class]. unfold VDom.has_class at 1. simpl.
  rewrite flat_map_app. simpl.
  induction (map_to_list inputs) as [|[key value] l IH]; simpl; [done|].
  unfold VDom.has_class. simpl. exact IH.
Qed.

(** C7. [ResultsDisplay] returns [null] for a falsy [results] (in particular
    for [null], the value of the state while there is no result).  After a
    submission answered with a 2xx status and a body that carries the four
    scalars, the view holds the [ResultsDisplay] element with exactly these
    four values embedded, and no element of class [error-message]. *)
Theorem results_display_shows_the_four_values :
  (forall results, JS.truthy results = false -> ResultsDisplay results = None) /\
  (forall status props x y z d st,
     Axios.validateStatus status = true ->
     JS.lookup_prop "optimal_x" props = Some x ->
     JS.lookup_prop "optimal_y" props = Some y ->
     JS.lookup_prop "optimal_z" props = Some z ->
     JS.lookup_prop "max_damage" props = Some d ->
     let st' := App.handleSubmit (Axios.Response status (JObj props)) st in
     exists n,
       ResultsDisplay (App.results st') = Some n /\
       VDom.exprs n = [x; y; z; d] /\
       App.render st' =
         Elem "div" [("className", JStr "App")]
           [ Elem "h1" [] [Text "Optimal Build Calculator"];
             InputForm (App.inputs st); Expr JNull; n ] /\
       VDom.by_class "error-message" (App.render st') = []).
Proof.
  split.
  - intros results H. unfold ResultsDisplay. by rewrite H.
  - intros status props x y z d st Hs Hx Hy Hz Hd st'.
    assert (App.results st' = JObj props /\ App.error st' = JNull /\
            App.inputs st' = App.inputs st) as (Hr & He & Hi).
    { subst st'. unfold App.handleSubmit, App.handleSubmit_resume. simpl.
      by rewrite Hs. }
    eexists. split; [rewrite Hr; reflexivity|]. split.
    { simpl. by rewrite Hx, Hy, Hz, Hd. }
    split.
    + unfold App.render. by rewrite Hr, He, Hi.
    + unfold App.render. rewrite Hr, He, Hi.
      cbn [VDom.by_class flat_map]. rewrite by_class_InputForm. reflexivity.
Qed.

Lemma results_display_shows_the_four_values_witness :
  exists n,
    ResultsDisplay (App.results (App.state App.after_session)) = Some n /\
    VDom.exprs n = [ JNum (Num.of_Z 1); JNum (Num.of_Z 2);
                     JNum (Num.of_Z 3); JNum (Num.of_Z 4) ].
Proof.
  destruct (proj2 results_display_shows_the_four_values 200%Z
              [ ("optimal_x", JNum (Num.of_Z 1));
                ("optimal_y", JNum (Num.of_Z 2));
                ("optimal_z", JNum (Num.of_Z 3));
                ("max_damage", JNum (Num.of_Z 4)) ]
              (JNum (Num.of_Z 1)) (JNum (Num.of_Z 2))
              (JNum (Num.of_Z 3)) (JNum (Num.of_Z 4))
              App.initial eq_refl eq_refl eq_refl eq_refl eq_refl)
    as (n & Hn & He & _).
  exists n. split; [exact Hn|exact He].
Defined.

End Outcome.

(** ** The heatmap *)

Section HeatmapProps.

Import Heatmap.

(** C8. For an absent or empty dataset [DamageHeatmap] returns [null].  For a
    dataset of N samples it hands [Plot] one trace whose [x], [y] and [z]
    arrays have N entries each: the samples' [x], [y] and [damage].  The
    samples' [z] does not enter these arrays (changing it leaves them as they
    are); it is the first entry of each of the N [customdata] rows, which the
    hover template reads. *)
Theorem DamageHeatmap_series s d :
  DamageHeatmap None = None /\
  DamageHeatmap (Some []) = None /\
  exists tr layout,
    DamageHeatmap (Some (s :: d)) = Some {| plotData := [tr]; plotLayout := layout |} /\
    trace_x tr = map x (s :: d) /\
    trace_y tr = map y (s :: d) /\
    trace_z tr = map damage (s :: d) /\
    customdata tr = map (fun p => [z p; damage p]) (s :: d) /\
    length (trace_x tr) = length (s :: d) /\
    length (trace_y tr) = length (s :: d) /\
    length (trace_z tr) = length (s :: d) /\
    length (customdata tr) = length (s :: d) /\
    (forall f : Number -> Number,
       exists tr' layout',
         DamageHeatmap
           (Some (map (fun p => {| x := x p; y := y p; z := f (z p);
                                   damage := damage p |}) (s :: d)))
         = Some {| plotData := [tr']; plotLayout := layout' |} /\
         trace_x tr' = trace_x tr /\
         trace_y tr' = trace_y tr /\
         trace_z tr' = trace_z tr).
Proof.
  split; [reflexivity|]. split; [reflexivity|].
  eexists _, _. split; [reflexivity|]. cbn [trace_x trace_y trace_z customdata].
  repeat (split; [first [reflexivity | by rewrite length_map]|]).
  intros f. eexists _, _. split; [reflexivity|].
  cbn [trace_x trace_y trace_z]. rewrite !map_map. by repeat split.
Qed.

End HeatmapProps.

(** ** Editing the form *)

Section Editing.

Implicit Types (inputs : gmap string FieldValue) (st : App.State).

(** X1. Two changes of the same field: only the later text is kept. *)
Theorem handleInputChange_last_write_wins st name value1 value2 :
  App.handleInputChange name value2 (App.handleInputChange name value1 st)
  = App.handleInputChange name value2 st.
Proof.
  unfold App.handleInputChange, App.setInputs, App.updateField. simpl.
  by rewrite insert_insert_eq.
Qed.

(** X2. Changes of two different fields can be made in either order. *)
Theorem handleInputChange_commute st name1 value1 name2 value2 :
  name1 <> name2 ->
  App.handleInputChange name1 value1 (App.handleInputChange name2 value2 st)
  = App.handleInputChange name2 value2 (App.handleInputChange name1 value1 st).
Proof.
  intros Hne. unfold App.handleInputChange, App.setInputs, App.updateField.
  simpl. f_equal. by apply insert_insert_ne.
Qed.

Lemma handleInputChange_commute_witness :
  App.handleInputChange "K" "7" (App.handleInputChange "S" "-" App.initial)
  = App.handleInputChange "S" "-" (App.handleInputChange "K" "7" App.initial).
Proof. apply handleInputChange_commute. discriminate. Defined.

Lemma exprs_InputForm inputs : VDom.exprs (InputForm inputs) = [].
Proof.
  unfold InputForm. cbn [VDom.exprs]. rewrite flat_map_app. simpl.
  induction (map_to_list inputs) as [|[key value] l IH]; simpl; [done|].
  exact IH.
Qed.

Lemma by_class_ResultsDisplay cls results :
  VDom.by_class cls (VDom.mount (ResultsDisplay results)) = [].
Proof.
  unfold ResultsDisplay. by destruct (JS.truthy results).
Qed.

(** The only element of class [error-message] in the view is the one that
    holds the error, and it is there exactly when the error is truthy. *)
Lemma by_class_error_render st :
  VDom.by_class "error-message" (App.render st)
  = if JS.truthy (App.error st)
    then [Elem "div" [("className", JStr "error-message")] [Expr (App.error st)]]
    else [].
Proof.
  unfold App.render. cbn [VDom.by_class flat_map].
  rewrite by_class_InputForm. unfold VDom.jsx_and.
  change (VDom.has_class "error-message" [("className", JStr "App")]) with false.
  change (VDom.by_class "error-message"
            (Elem "h1" [] [Text "Optimal Build Calculator"])) with (@nil Node).
  cbn [app].
  destruct (JS.truthy (App.error st)); destruct (JS.truthy (App.results st));
    cbn [VDom.by_class flat_map app]; rewrite ?by_class_ResultsDisplay;
    reflexivity.
Qed.

(** X3. Typing into a field changes nothing outside the form: the result
    and the error stay in the state, and the view embeds the same values and
    shows the same error element as before, until the next submission. *)
Theorem handleInputChange_keeps_outputs st name value :
  App.results (App.handleInputChange name value st) = App.results st /\
  App.error (App.handleInputChange name value st) = App.error st /\
  VDom.exprs (App.render (App.handleInputChange name value st))
  = VDom.exprs (App.render st) /\
  VDom.by_class "error-message" (App.render (App.handleInputChange name value st))
  = VDom.by_class "error-message" (App.render st).
Proof.
  split; [done|]. split; [done|]. split.
  - unfold App.render. cbn [VDom.exprs flat_map].
    by rewrite !exprs_InputForm.
  - by rewrite !by_class_error_render.
Qed.

Lemma InputForm_input_values inputs :
  Observe.input_values (InputForm inputs)
  = (fun kv => (kv.1, field_js kv.2)) <$> map_to_list inputs.
Proof.
  unfold InputForm. cbn [Observe.input_values]. simpl.
  rewrite flat_map_app. simpl. rewrite app_nil_r.
  induction (map_to_list inputs) as [|[key value] l IH]; simpl; [done|].
  by rewrite IH.
Qed.

Lemma elem_of_InputForm_input_values inputs key v :
  (key, v) ∈ Observe.input_values (InputForm inputs)
  <-> exists value, inputs !! key = Some value /\ v = field_js value.
Proof.
  rewrite InputForm_input_values. split.
  - intros H. apply list_elem_of_fmap in H as ([k fv] & Heq & H).
    simpl in Heq. injection Heq as -> ->.
    apply elem_of_map_to_list in H. eauto.
  - intros (fv & H & ->). apply list_elem_of_fmap. exists (key, fv).
    split; [done|]. by apply elem_of_map_to_list.
Qed.

(** X4. The form is controlled by the state: after a change the input named
    after the field shows exactly the text that was typed, and no input of
    that name shows anything else. *)
Theorem InputForm_shows_typed_text st name value :
  let form := InputForm (App.inputs (App.handleInputChange name value st)) in
  (name, JStr value) ∈ Observe.input_values form /\
  (forall v, (name, v) ∈ Observe.input_values form -> v = JStr value).
Proof.
  simpl. split.
  - apply elem_of_InputForm_input_values. exists (FStr value).
    split; [|done]. unfold App.updateField. apply lookup_insert_eq.
  - intros v H. apply elem_of_InputForm_input_values in H as (fv & H & ->).
    unfold App.updateField in H. rewrite lookup_insert_eq in H.
    by injection H as <-.
Qed.

(** X5. The form shows one input per key of the mapping: the names are the
    keys without repetition, there are as many inputs as keys, and each
    input shows the stored value of its key. *)
Theorem InputForm_one_input_per_key inputs :
  NoDup (VDom.input_names (InputForm inputs)) /\
  length (VDom.input_names (InputForm inputs)) = size inputs /\
  (forall key v,
     (key, v) ∈ Observe.input_values (InputForm inputs)
     <-> exists value, inputs !! key = Some value /\ v = field_js value).
Proof.
  rewrite InputForm_input_names. split; [apply NoDup_fst_map_to_list|].
  split; [by rewrite length_fmap, length_map_to_list|].
  apply elem_of_InputForm_input_values.
Qed.

Lemma step_replay e v v' :
  App.step e v = Some v' ->
  App.inputs (App.state v') = Observe.replay [e] (App.inputs (App.state v)).
Proof.
  destruct e as [name value| |r]; simpl.
  - case_bool_decide; [|discriminate]. intros Hv. by injection Hv as <-.
  - intros Hv. by injection Hv as <-.
  - destruct (App.inflight v); [discriminate|]. intros Hv.
    injection Hv as <-. simpl. by rewrite handleSubmit_resume_inputs.
Qed.

Lemma run_replay es v v' :
  App.run es v = Some v' ->
  App.inputs (App.state v') = Observe.replay es (App.inputs (App.state v)).
Proof.
  revert v. induction es as [|e es IH]; intros v; simpl.
  - intros Hv. by injection Hv as <-.
  - destruct (App.step e v) as [v1|] eqn:E; [|discriminate].
    intros H. rewrite (IH _ H). by rewrite (step_replay e v v1 E).
Qed.

(** X6. Whatever the session, the input mapping is the initial mapping with
    the change events applied in order: submissions and their answers never
    write to it. *)
Theorem session_inputs_are_replayed_changes es v :
  App.run es App.start = Some v ->
  App.inputs (App.state v) = Observe.replay es App.initial_inputs.
Proof. intros H. by rewrite (run_replay es App.start v H). Qed.

Lemma session_inputs_are_replayed_changes_witness :
  App.inputs (App.state App.after_session)
  = Observe.replay App.session App.initial_inputs.
Proof.
  apply session_inputs_are_replayed_changes. vm_compute. reflexivity.
Defined.

(** X7. A submission does not write the coerced numbers back: whatever the
    answer, the form shows the same inputs afterwards, and submitting again
    posts the same payload. *)
Theorem handleSubmit_keeps_inputs r st :
  App.inputs (App.handleSubmit r st) = App.inputs st /\
  InputForm (App.inputs (App.handleSubmit r st)) = InputForm (App.inputs st) /\
  snd (App.handleSubmit_begin (App.handleSubmit r st))
  = snd (App.handleSubmit_begin st).
Proof.
  assert (App.inputs (App.handleSubmit r st) = App.inputs st) as H.
  { unfold App.handleSubmit. by rewrite handleSubmit_resume_inputs. }
  split; [exact H|]. split; [by rewrite H|].
  unfold App.handleSubmit_begin. cbn [snd]. by rewrite H.
Qed.

End Editing.

(** ** More on the payload *)

Section PayloadExtra.

Import Parse.

Implicit Types (inputs : gmap string FieldValue) (st : App.State).

Lemma coerce_not_NaN value : Num.isNaN (App.coerce value) = false.
Proof.
  unfold App.coerce. by destruct (Num.isNaN (parseFloat value)) eqn:E.
Qed.

(** X8. No field of the payload is ever not-a-number, whatever the input
    mapping holds. *)
Theorem payload_never_NaN st key n :
  snd (App.handleSubmit_begin st) !! key = Some n -> Num.isNaN n = false.
Proof.
  simpl. rewrite dataToSend_fmap, lookup_fmap.
  destruct (delete "__proto__" (App.inputs st) !! key) as [value|];
    simpl; [|discriminate].
  intros H. injection H as <-. apply coerce_not_NaN.
Qed.

Lemma payload_never_NaN_witness :
  Num.isNaN Num.zero = false.
Proof.
  apply (payload_never_NaN (App.handleInputChange "F" "abc" App.initial) "F").
  reflexivity.
Defined.

(** X9. The payload has a field for every key of the input mapping and for
    no other name, with one exception: a key [__proto__] is never sent. *)
Theorem payload_fields st :
  snd (App.handleSubmit_begin st) !! "__proto__" = None /\
  (forall key, key <> "__proto__" ->
     (is_Some (snd (App.handleSubmit_begin st) !! key)
      <-> is_Some (App.inputs st !! key))).
Proof.
  simpl. rewrite dataToSend_fmap. split.
  - by rewrite lookup_fmap, lookup_delete_eq.
  - intros key Hne. rewrite lookup_fmap, lookup_delete_ne by done.
    by rewrite fmap_is_Some.
Qed.

Lemma TrimStart_blank ws s :
  Observe.blank ws = true -> TrimStart (ws ++ s) = TrimStart s.
Proof.
  induction ws as [|c ws IH]; simpl; [done|].
  intros H. apply andb_true_iff in H as [Hc Hws]. rewrite Hc. by apply IH.
Qed.

(** X10. White space in front of the text of a field has no effect on what
    is sent for it. *)
Theorem payload_ignores_leading_white_space st key ws s :
  key <> "__proto__" ->
  App.inputs st !! key = Some (FStr (ws ++ s)) ->
  Observe.blank ws = true ->
  snd (App.handleSubmit_begin st) !! key = Some (App.coerce (FStr s)).
Proof.
  intros Hne Hkey Hws. simpl. rewrite dataToSend_lookup, Hkey by done.
  simpl. f_equal. unfold App.coerce. simpl. unfold parseFloat_string.
  by rewrite TrimStart_blank.
Qed.

Lemma payload_ignores_leading_white_space_witness :
  snd (App.handleSubmit_begin (App.handleInputChange "K" "  42" App.initial)) !! "K"
  = Some (App.coerce (FStr "42")).
Proof.
  apply (payload_ignores_leading_white_space _ "K" "  " "42").
  - discriminate.
  - reflexivity.
  - reflexivity.
Defined.

Lemma StrDecimalLiteral_bad_head c r :
  Observe.starts_literal c = false -> StrDecimalLiteral (String c r) = None.
Proof.
  unfold Observe.starts_literal. intros H.
  apply orb_false_iff in H as [H HI]. apply orb_false_iff in H as [H Hm].
  apply orb_false_iff in H as [H Hp]. apply orb_false_iff in H as [Hd Hdot].
  unfold StrDecimalLiteral, Sign. rewrite Hm, Hp.
  unfold StrUnsignedDecimalLiteral.
  change (drop_prefix "Infinity" (String c r))
    with (if Ascii.eqb "I" c then drop_prefix "nfinity" r else None).
  rewrite HI. simpl. by rewrite Hd, Hdot.
Qed.

(** X11. When the first character of a field's text that is not white space
    cannot begin a number (it is no digit, sign, point or [I]), 0 is sent for
    the field. *)
Theorem payload_non_numeric_head_is_zero st key s c r :
  key <> "__proto__" ->
  App.inputs st !! key = Some (FStr s) ->
  TrimStart s = String c r ->
  Observe.starts_literal c = false ->
  snd (App.handleSubmit_begin st) !! key = Some Num.zero.
Proof.
  intros Hne Hkey Hs Hc. simpl. rewrite dataToSend_lookup, Hkey by done.
  simpl. f_equal. apply coerce_NaN. simpl. unfold parseFloat_string.
  by rewrite Hs, StrDecimalLiteral_bad_head.
Qed.

Lemma payload_non_numeric_head_is_zero_witness :
  snd (App.handleSubmit_begin (App.handleInputChange "S" " x12" App.initial)) !! "S"
  = Some Num.zero.
Proof.
  apply (payload_non_numeric_head_is_zero _ "S" " x12" "x" "12").
  - discriminate.
  - reflexivity.
  - reflexivity.
  - reflexivity.
Defined.



End PayloadExtra.

(** ** Signs *)

Section Signs.

Import Parse.

Lemma starts_unsigned_classes c :
  Observe.starts_unsigned c = true ->
  is_minus c = false /\ is_plus c = false /\ is_white_space c = false.
Proof.
  unfold Observe.starts_unsigned. intros H.
  destruct (Ascii.eqb "I" c) eqn:EI.
  { apply Ascii.eqb_eq in EI. subst c. by vm_compute. }
  rewrite orb_false_r in H.
  unfold is_digit, is_dot, is_minus, is_plus, is_white_space in *.
  set (n := code c) in *. clearbody n.
  apply orb_true_iff in H as [H|H].
  - apply andb_true_iff in H as [H1 H2].
    apply N.leb_le in H1. apply N.leb_le in H2.
    repeat split.
    + apply N.eqb_neq. lia.
    + apply N.eqb_neq. lia.
    + assert ((n <=? 13)%N = false) as -> by (apply N.leb_gt; lia).
      assert ((n =? 32)%N = false) as -> by (apply N.eqb_neq; lia).
      assert ((n =? 160)%N = false) as -> by (apply N.eqb_neq; lia).
      by rewrite andb_false_r.
  - apply N.eqb_eq in H. subst n. by vm_compute.
Qed.

Lemma parseFloat_string_unsigned c r :
  Observe.starts_unsigned c = true ->
  parseFloat_string (String c r) =
  match StrUnsignedDecimalLiteral (String c r) with
  | Some (MInfinity, _) => Infinity false
  | Some (MFinite q, _) => Finite false q
  | None => NaN
  end.
Proof.
  intros H. destruct (starts_unsigned_classes c H) as (Hm & Hp & Hw).
  unfold parseFloat_string. simpl. rewrite Hw.
  unfold StrDecimalLiteral, Sign. rewrite Hm, Hp.
  by destruct (StrUnsignedDecimalLiteral (String c r)) as [[[|q] r']|].
Qed.

(** X12. A minus sign in front of a number negates what is sent for the
    field, and a plus sign changes nothing. *)
Theorem coerce_leading_sign c r :
  Observe.starts_unsigned c = true ->
  Num.isNaN (parseFloat_string (String c r)) = false ->
  App.coerce (FStr (String "-" (String c r)))
  = Observe.negate (App.coerce (FStr (String c r))) /\
  App.coerce (FStr (String "+" (String c r))) = App.coerce (FStr (String c r)).
Proof.
  intros Hc Hn.
  assert (parseFloat_string (String "-" (String c r))
          = Observe.negate (parseFloat_string (String c r)) /\
          parseFloat_string (String "+" (String c r))
          = parseFloat_string (String c r)) as [Hminus Hplus].
  { rewrite (parseFloat_string_unsigned c r Hc).
    unfold parseFloat_string.
    change (TrimStart (String "-" (String c r))) with (String "-" (String c r)).
    change (TrimStart (String "+" (String c r))) with (String "+" (String c r)).
    unfold StrDecimalLiteral.
    change (Sign (String "-" (String c r))) with (true, String c r).
    change (Sign (String "+" (String c r))) with (false, String c r).
    cbv beta iota.
    by destruct (StrUnsignedDecimalLiteral (String c r)) as [[[|q] r']|]. }
  unfold App.coerce. simpl. rewrite Hminus, Hplus, Hn.
  destruct (parseFloat_string (String c r)); [discriminate|done|done].
Qed.

Lemma coerce_leading_sign_witness :
  App.coerce (FStr "-12.5") = Observe.negate (App.coerce (FStr "12.5")) /\
  App.coerce (FStr "+12.5") = App.coerce (FStr "12.5").
Proof.
  apply (coerce_leading_sign "1" "2.5").
  - reflexivity.
  - reflexivity.
Defined.

End Signs.

(** ** More on results and errors *)

Section OutcomeExtra.

Implicit Types (st : App.State) (r : Axios.Reply).

Lemma view_shows_truthy_error_aux st :
  App.displayed_error st
  = if JS.truthy (App.error st) then [[Expr (App.error st)]] else [].
Proof.
  unfold App.displayed_error. rewrite by_class_error_render.
  by destruct (JS.truthy (App.error st)).
Qed.

(** X13. The view shows an error element exactly when the error in the
    state is truthy, and the element then holds that error and nothing else;
    an empty text, [null] or [undefined] shows nothing. *)
Theorem view_shows_truthy_error st :
  App.displayed_error st
  = if JS.truthy (App.error st) then [[Expr (App.error st)]] else [].
Proof. apply view_shows_truthy_error_aux. Qed.

(** X14. A submission answered with a 2xx status stores the response body
    as the result, whatever it is, and leaves no error. *)
Theorem handleSubmit_success status data st :
  Axios.validateStatus status = true ->
  App.results (App.handleSubmit (Axios.Response status data) st) = data /\
  App.error (App.handleSubmit (Axios.Response status data) st) = JNull.
Proof.
  intros Hs. unfold App.handleSubmit, App.handleSubmit_resume. simpl.
  by rewrite Hs.
Qed.

Lemma handleSubmit_success_witness :
  App.results (App.handleSubmit (Axios.Response 201 (JStr "ok")) App.initial)
  = JStr "ok" /\
  App.error (App.handleSubmit (Axios.Response 201 (JStr "ok")) App.initial)
  = JNull.
Proof. apply handleSubmit_success. reflexivity. Defined.

(** X15. A failed submission leaves no result, and its error is: the
    fallback text when there was no response; the [error] member of the body
    when there was one (so [undefined] when the body has no such member);
    and still [null] when the body is [null], because reading the member
    throws. *)
Theorem handleSubmit_failure r st :
  Axios.fails r = true ->
  App.results (App.handleSubmit r st) = JNull /\
  App.error (App.handleSubmit r st) =
  match r with
  | Axios.NoResponse => JStr "An unexpected error occurred."
  | Axios.Response _ data =>
      if JS.nullish data then JNull else JS.prop "error" data
  end.
Proof.
  intros H. split; [|by apply handleSubmit_failure_error].
  unfold Axios.fails in H. unfold App.handleSubmit, App.handleSubmit_resume.
  destruct (Axios.post r) as [resp|err]; [discriminate|].
  destruct (Axios.response err) as [resp|]; [|done].
  by destruct (JS.nullish (Axios.data resp)).
Qed.

Lemma handleSubmit_failure_witness :
  App.results (App.handleSubmit (Axios.Response 404 JNull) App.initial) = JNull /\
  App.error (App.handleSubmit (Axios.Response 404 JNull) App.initial) = JNull.
Proof.
  apply (handleSubmit_failure (Axios.Response 404 JNull)). reflexivity.
Defined.

(** X16. When the request settles only one of the two outputs is written:
    a failure leaves the result as it is, a success leaves the error as it
    is.  This is how two overlapping submissions can end with both set. *)
Theorem handleSubmit_resume_writes_one_output r st :
  if Axios.fails r
  then App.results (App.handleSubmit_resume r st) = App.results st
  else App.error (App.handleSubmit_resume r st) = App.error st.
Proof.
  unfold Axios.fails, App.handleSubmit_resume.
  destruct (Axios.post r) as [resp|err]; [done|].
  destruct (Axios.response err) as [resp|]; [|done].
  by destruct (JS.nullish (Axios.data resp)).
Qed.

(** X17. A failed response whose body is [null] or [undefined] leaves the
    view without any feedback: the state is the one the start of the
    submission left, with no error element and no result to show. *)
Theorem handleSubmit_nullish_body_is_silent status data st :
  Axios.validateStatus status = false ->
  JS.nullish data = true ->
  let st' := App.handleSubmit (Axios.Response status data) st in
  st' = fst (App.handleSubmit_begin st) /\
  App.displayed_error st' = [] /\
  ResultsDisplay (App.results st') = None.
Proof.
  intros Hs Hd st'.
  assert (st' = fst (App.handleSubmit_begin st)) as ->.
  { subst st'. unfold App.handleSubmit, App.handleSubmit_resume. simpl.
    rewrite Hs. simpl. by rewrite Hd. }
  split; [done|]. split; [|done].
  by rewrite view_shows_truthy_error_aux.
Qed.

Lemma handleSubmit_nullish_body_is_silent_witness :
  let st' := App.handleSubmit (Axios.Response 502 JNull) App.all_typed in
  st' = fst (App.handleSubmit_begin App.all_typed) /\
  App.displayed_error st' = [] /\
  ResultsDisplay (App.results st') = None.
Proof.
  apply (handleSubmit_nullish_body_is_silent 502 JNull); reflexivity.
Defined.

End OutcomeExtra.

(** ** More on the two display components *)

Section Display.

Import Heatmap.

(** X18. [ResultsDisplay] reads the four result fields and nothing else: two
    truthy results that agree on them are displayed alike, whatever else
    they hold. *)
Theorem ResultsDisplay_reads_four_fields results1 results2 :
  JS.truthy results1 = true ->
  JS.truthy results2 = true ->
  JS.prop "optimal_x" results1 = JS.prop "optimal_x" results2 ->
  JS.prop "optimal_y" results1 = JS.prop "optimal_y" results2 ->
  JS.prop "optimal_z" results1 = JS.prop "optimal_z" results2 ->
  JS.prop "max_damage" results1 = JS.prop "max_damage" results2 ->
  ResultsDisplay results1 = ResultsDisplay results2.
Proof.
  intros H1 H2 Hx Hy Hz Hd. unfold ResultsDisplay.
  by rewrite H1, H2, Hx, Hy, Hz, Hd.
Qed.

Lemma ResultsDisplay_reads_four_fields_witness :
  ResultsDisplay
    (JObj [ ("optimal_x", JNum (Num.of_Z 1)); ("optimal_y", JNum (Num.of_Z 2));
            ("heatmap", JArr []);
            ("optimal_z", JNum (Num.of_Z 3)); ("max_damage", JNum (Num.of_Z 4)) ])
  = ResultsDisplay
      (JObj [ ("max_damage", JNum (Num.of_Z 4)); ("optimal_z", JNum (Num.of_Z 3));
              ("optimal_y", JNum (Num.of_Z 2)); ("optimal_x", JNum (Num.of_Z 1)) ]).
Proof.
  apply ResultsDisplay_reads_four_fields; reflexivity.
Defined.

Lemma lookup_map {A B} (f : A -> B) (l : list A) (i : nat) :
  map f l !! i = f <$> l !! i.
Proof.
  revert i. induction l as [|a l IH]; intros [|i]; simpl; auto.
Qed.

(** X19. The arrays of the trace are aligned with the dataset: the entries
    at position [i] of [x], [y], [z] and [customdata] all come from the
    sample at position [i], and the damage in the hover row is the value
    that is colour-mapped. *)
Theorem DamageHeatmap_points_aligned d plot i p :
  DamageHeatmap (Some d) = Some plot ->
  d !! i = Some p ->
  exists tr,
    plotData plot = [tr] /\
    trace_x tr !! i = Some (x p) /\
    trace_y tr !! i = Some (y p) /\
    trace_z tr !! i = Some (damage p) /\
    customdata tr !! i = Some [z p; damage p].
Proof.
  unfold DamageHeatmap. destruct (Nat.eqb (length d) 0); [discriminate|].
  intros Hplot Hi. injection Hplot as <-. eexists. split; [reflexivity|].
  cbn [trace_x trace_y trace_z customdata].
  rewrite !lookup_map, Hi. by repeat split.
Qed.

Lemma DamageHeatmap_points_aligned_witness :
  exists plot tr,
    Heatmap.DamageHeatmap (Some Observe.two_samples) = Some plot /\
    plotData plot = [tr] /\
    trace_x tr !! 1 = Some (Num.of_Z 2) /\
    trace_y tr !! 1 = Some (Num.of_Z 1) /\
    trace_z tr !! 1 = Some (Num.of_Z 50) /\
    customdata tr !! 1 = Some [Num.of_Z 3; Num.of_Z 50].
Proof.
  eexists.
  destruct (DamageHeatmap_points_aligned Observe.two_samples _ 1
              {| x := Num.of_Z 2; y := Num.of_Z 1; z := Num.of_Z 3;
                 damage := Num.of_Z 50 |} eq_refl eq_refl)
    as (tr & H).
  exists tr. split; [reflexivity|exact H].
Defined.

End Display.

(** ** Coercion on change *)

Section OnChange.

Implicit Types (inputs : gmap string FieldValue) (st : App.State).

Lemma or_zero_coerce s :
  AppOnChange.or_zero (Parse.parseFloat_string s)
  = Observe.unsigned_zero (App.coerce (FStr s)).
Proof.
  unfold AppOnChange.or_zero, App.coerce. simpl.
  destruct (Parse.parseFloat_string s) as [|neg|neg q]; simpl; [done|done|].
  by destruct (Qeq_bool q 0).
Qed.

Lemma or_zero_not_NaN n : Num.isNaN (AppOnChange.or_zero n) = false.
Proof. unfold AppOnChange.or_zero. by destruct n as [|neg|neg q]; simpl; try destruct (Qeq_bool q 0). Qed.

(** X20. The second view stores at every change the number that [App.js]
    would send at submission for the same text, except that a negative zero
    is stored as [+0]; the stored value is never not-a-number and never the
    text itself. *)
Theorem on_change_stores_coerced_number st name value :
  exists n,
    App.inputs (AppOnChange.handleInputChange name value st) !! name
    = Some (FNum n) /\
    n = Observe.unsigned_zero (App.coerce (FStr value)) /\
    Num.isNaN n = false.
Proof.
  eexists. split; [apply lookup_insert_eq|]. split.
  - apply or_zero_coerce.
  - apply or_zero_not_NaN.
Qed.

(** X21. With coercion on change the form cannot hold a text that is not a
    number: after a change to a text that [parseFloat] rejects (an empty
    field, a lone minus sign) the input shows the number 0. *)
Theorem on_change_resets_unparsable_text st name value :
  Num.isNaN (Parse.parseFloat_string value) = true ->
  let form := InputForm (App.inputs (AppOnChange.handleInputChange name value st)) in
  (name, JNum Num.zero) ∈ Observe.input_values form /\
  (forall v, (name, v) ∈ Observe.input_values form -> v = JNum Num.zero).
Proof.
  intros Hnan form.
  assert (App.inputs (AppOnChange.handleInputChange name value st) !! name
          = Some (FNum Num.zero)) as Hl.
  { simpl. unfold AppOnChange.updateField. rewrite lookup_insert_eq.
    simpl. unfold AppOnChange.or_zero.
    by destruct (Parse.parseFloat_string value). }
  split.
  - apply elem_of_InputForm_input_values. by exists (FNum Num.zero).
  - intros v H. apply elem_of_InputForm_input_values in H as (fv & H & ->).
    rewrite Hl in H. by injection H as <-.
Qed.

Lemma on_change_resets_unparsable_text_witness :
  (("F", JNum Num.zero) ∈
     Observe.input_values
       (InputForm (App.inputs (AppOnChange.handleInputChange "F" "-" App.initial)))) /\
  (forall v,
     ("F", v) ∈
       Observe.input_values
         (InputForm (App.inputs (AppOnChange.handleInputChange "F" "-" App.initial))) ->
     v = JNum Num.zero).
Proof.
  apply (on_change_resets_unparsable_text App.initial "F" "-"). reflexivity.
Defined.

(** X22. Selecting a preset replaces the whole input mapping: earlier edits
    are gone, the result and the error are untouched, and a submission posts
    the preset as it is. *)
Theorem handlePresetSelect_replaces presetValues st name value :
  AppOnChange.handlePresetSelect presetValues
    (AppOnChange.handleInputChange name value st)
  = AppOnChange.handlePresetSelect presetValues st /\
  App.inputs (AppOnChange.handlePresetSelect presetValues st) = presetValues /\
  App.results (AppOnChange.handlePresetSelect presetValues st) = App.results st /\
  App.error (AppOnChange.handlePresetSelect presetValues st) = App.error st /\
  snd (AppOnChange.handleSubmit_begin
         (AppOnChange.handlePresetSelect presetValues st)) = presetValues.
Proof. by repeat split. Qed.

(** X23. As long as only change events write to the mapping, every field of
    the second view holds a number that is not not-a-number, so that the
    payload, which is the mapping itself, needs no coercion. *)
Theorem on_change_payload_is_numeric (changes : list (string * string)) key v :
  let st := fold_left
              (fun st c => AppOnChange.handleInputChange c.1 c.2 st)
              changes App.initial in
  snd (AppOnChange.handleSubmit_begin st) !! key = Some v ->
  exists n, v = FNum n /\ Num.isNaN n = false.
Proof.
  simpl.
  assert (forall st0,
            map_Forall (fun _ v => exists n, v = FNum n /\ Num.isNaN n = false)
                       (App.inputs st0) ->
            map_Forall (fun _ v => exists n, v = FNum n /\ Num.isNaN n = false)
                       (App.inputs
                          (fold_left
                             (fun st c => AppOnChange.handleInputChange c.1 c.2 st)
                             changes st0))) as Hinv.
  { induction changes as [|[name value] changes IH]; intros st0 H0; simpl;
      [exact H0|].
    apply IH. simpl. unfold AppOnChange.updateField.
    apply map_Forall_insert_2; [|exact H0].
    eexists. split; [reflexivity|]. apply or_zero_not_NaN. }
  intros Hv. apply (Hinv App.initial) in Hv; [exact Hv|].
  intros k fv Hk. apply elem_of_map_to_list in Hk. vm_compute in Hk.
  repeat (apply elem_of_cons in Hk; destruct Hk as [Hk|Hk];
          [injection Hk as -> ->; eexists; split; reflexivity|]).
  by apply elem_of_nil in Hk.
Qed.

Lemma on_change_payload_is_numeric_witness :
  exists n, FNum Num.zero = FNum n /\ Num.isNaN n = false.
Proof.
  apply (on_change_payload_is_numeric [("K", "12"); ("F", "-")] "F").
  reflexivity.
Defined.

End OnChange.
